(** * CreditApplicationForm: validation schema and submission controller

    A shallow embedding of the credit-application form component
    (formSchema, nationalities, CreditApplicationForm.onSubmit and the event
    handlers wired in its JSX), with the properties of its specification.

    Conventions of the model.
    - A JavaScript string is a [string]; its characters are taken in the
      ASCII range.  The Unicode parts of [String.prototype.trim],
      [String.prototype.toUpperCase] and of the regex class [\s] (characters
      above U+007F) are outside the model.
    - A JavaScript number is a [jsnum]: NaN, the two infinities, or the
      rational value of a finite double.  Comparisons of finite numbers are
      exact, as they are on IEEE doubles, and [Number(...)] rounds the value
      of a literal to the nearest double (ties to even, overflow to
      Infinity, underflow to 0).
    - The component is an event-driven state machine, given twice.
      [CreditApplicationForm.step] takes the component state and one event
      (a DOM event, the settlement of the fetch promise, the expiry of the
      timer) to the next state and the effects, with the page rendered and
      the resolver run before the next event is taken.  [Browser.perform]
      splits this into the tasks the browser runs: the page shows the flags
      of the last render, [form.handleSubmit] awaits the resolver before it
      calls [onSubmit], and the browser's own validation of the controls is
      a parameter.  [step] is [perform] with a render after each event
      ([step_is_rendered_play]); what depends on the order of submits and
      renders is stated on [perform]. *)

From Stdlib Require Import String Ascii List ZArith QArith Qreduction Bool Lia.
Import ListNotations.

Local Open Scope string_scope.
Local Open Scope list_scope.

(** ** JavaScript strings *)

Module JsString.

Definition code (c : ascii) : N := N_of_ascii c.

Definition inRange (lo hi : N) (c : ascii) : bool :=
  ((lo <=? code c) && (code c <=? hi))%N.

(** [a-z], [A-Z], [0-9] *)
Definition isLower (c : ascii) : bool := inRange 97 122 c.
Definition isUpper (c : ascii) : bool := inRange 65 90 c.
Definition isDigit (c : ascii) : bool := inRange 48 57 c.
Definition isLetter (c : ascii) : bool := isLower c || isUpper c.

(** WhiteSpace and LineTerminator of ECMAScript, ASCII part:
    TAB, LF, VT, FF, CR, SP.  It is the set stripped by [trim] and matched
    by [\s]. *)
Definition isWhiteSpace (c : ascii) : bool :=
  inRange 9 13 c || (code c =? 32)%N.

(** [String.prototype.trim] *)
Fixpoint trimStart (s : string) : string :=
  match s with
  | EmptyString => EmptyString
  | String c s' => if isWhiteSpace c then trimStart s' else s
  end.

Fixpoint trimEnd (s : string) : string :=
  match s with
  | EmptyString => EmptyString
  | String c s' =>
      match trimEnd s' with
      | EmptyString => if isWhiteSpace c then EmptyString else String c EmptyString
      | t => String c t
      end
  end.

Definition trim (s : string) : string := trimEnd (trimStart s).

(** [String.prototype.toUpperCase] *)
Definition upperChar (c : ascii) : ascii :=
  if isLower c then ascii_of_N (code c - 32) else c.

Fixpoint toUpperCase (s : string) : string :=
  match s with
  | EmptyString => EmptyString
  | String c s' => String (upperChar c) (toUpperCase s')
  end.

Fixpoint forallb (p : ascii -> bool) (s : string) : bool :=
  match s with
  | EmptyString => true
  | String c s' => p c && forallb p s'
  end.

(** The strings the model is exact on: every character below U+0080. *)
Definition isAsciiChar (c : ascii) : bool := (code c <? 128)%N.
Definition isAscii (s : string) : bool := forallb isAsciiChar s.

Definition isEmpty (s : string) : bool :=
  match s with EmptyString => true | _ => false end.

(** [/^[...]+$/.test(s)] for a character class given by its predicate. *)
Definition matchesClassPlus (cls : ascii -> bool) (s : string) : bool :=
  negb (isEmpty s) && forallb cls s.

(** [s.includes(t)] for a two-character [t], used by the lookahead of the
    address pattern. *)
Fixpoint includes2 (a b : ascii) (s : string) : bool :=
  match s with
  | String c ((String d _) as s') =>
      ((c =? a)%char && (d =? b)%char) || includes2 a b s'
  | _ => false
  end.

(** [s.split(sep)] for a one-character separator. *)
Fixpoint split (sep : ascii) (s : string) : list string :=
  match s with
  | EmptyString => [EmptyString]
  | String c s' =>
      if (c =? sep)%char then EmptyString :: split sep s'
      else match split sep s' with
           | [] => [String c EmptyString]
           | h :: t => String c h :: t
           end
  end.

End JsString.

(** ** JavaScript numbers *)

Module JsNumber.
Import JsString.

Inductive jsnum : Type :=
| NaN
| NegInfinity
| Finite (q : Q)
| PosInfinity.

Definition Qltb (p q : Q) : bool := negb (Qle_bool q p).

(** The relational operators [<] and [<=]; every comparison with NaN is
    false. *)
Definition lt (a b : jsnum) : bool :=
  match a, b with
  | NaN, _ | _, NaN => false
  | _, NegInfinity => false
  | NegInfinity, _ => true
  | PosInfinity, _ => false
  | Finite _, PosInfinity => true
  | Finite p, Finite q => Qltb p q
  end.

Definition le (a b : jsnum) : bool :=
  match a, b with
  | NaN, _ | _, NaN => false
  | NegInfinity, _ => true
  | _, NegInfinity => false
  | _, PosInfinity => true
  | PosInfinity, _ => false
  | Finite p, Finite q => Qle_bool p q
  end.

Definition gt (a b : jsnum) : bool := lt b a.
Definition ge (a b : jsnum) : bool := le b a.

Definition neg (a : jsnum) : jsnum :=
  match a with
  | NaN => NaN
  | NegInfinity => PosInfinity
  | PosInfinity => NegInfinity
  | Finite q => Finite (Qopp q)
  end.

Definition ofZ (z : Z) : jsnum := Finite (inject_Z z).

(** The mathematical value of the decimal literal [m]e[e]. *)
Definition decimal (m e : Z) : Q :=
  if (0 <=? e)%Z then inject_Z (m * 10 ^ e)
  else Qred (Qmake m (Z.to_pos (10 ^ (- e)))).

(** The integer part of the base-2 logarithm of n/d. *)
Definition floorLog2 (n d : positive) : Z :=
  let l := (Z.log2 (Zpos n) - Z.log2 (Zpos d))%Z in
  let reached :=
    if (0 <=? l)%Z then (Zpos d * 2 ^ l <=? Zpos n)%Z
    else (Zpos d <=? Zpos n * 2 ^ (- l))%Z in
  if reached then l else (l - 1)%Z.

(** num/den rounded to the nearest integer, ties to the even one. *)
Definition roundHalfEven (num den : Z) : Z :=
  let k := (num / den)%Z in
  match (2 * (num mod den) ?= den)%Z with
  | Lt => k
  | Gt => (k + 1)%Z
  | Eq => if Z.even k then k else (k + 1)%Z
  end.

(** The binary64 value nearest to a positive n/d: a significand of 53
    bits, the exponent of its last bit not below -1074, and Infinity from
    2^1024 on. *)
Definition roundPositive (n d : positive) : jsnum :=
  let e := Z.max (floorLog2 n d - 52) (-1074) in
  let m :=
    if (0 <=? e)%Z then roundHalfEven (Zpos n) (Zpos d * 2 ^ e)
    else roundHalfEven (Zpos n * 2 ^ (- e)) (Zpos d) in
  if (0 <=? e)%Z then
    if (2 ^ 1024 <=? m * 2 ^ e)%Z then PosInfinity
    else Finite (inject_Z (m * 2 ^ e))
  else Finite (Qred (Qmake m (Z.to_pos (2 ^ (- e))))).

(** The double a mathematical value is rounded to. *)
Definition roundDouble (q : Q) : jsnum :=
  match Qnum q with
  | Z0 => Finite (inject_Z 0)
  | Zpos n => roundPositive n (Qden q)
  | Zneg n => neg (roundPositive n (Qden q))
  end.

Definition digitValue (c : ascii) : option Z :=
  if isDigit c then Some (Z.of_N (code c) - 48)%Z
  else if inRange 97 102 c then Some (Z.of_N (code c) - 87)%Z
  else if inRange 65 70 c then Some (Z.of_N (code c) - 55)%Z
  else None.

(** Reads the longest prefix of digits of the radix; returns the
    accumulated value, the number of digits read and the rest. *)
Fixpoint scanDigits (radix : Z) (s : string) (acc : Z) (n : nat)
  : Z * nat * string :=
  match s with
  | EmptyString => (acc, n, s)
  | String c s' =>
      match digitValue c with
      | Some d =>
          if (d <? radix)%Z then scanDigits radix s' (acc * radix + d)%Z (S n)
          else (acc, n, s)
      | None => (acc, n, s)
      end
  end.

(** SignedInteger, up to the end of the string. *)
Definition parseSignedInteger (s : string) : option Z :=
  let '(sign, r) :=
    match s with
    | String "+" r => (1%Z, r)
    | String "-" r => ((-1)%Z, r)
    | _ => (1%Z, s)
    end in
  match scanDigits 10 r 0 0 with
  | (v, S _, EmptyString) => Some (sign * v)%Z
  | _ => None
  end.

(** An optional ExponentPart, up to the end of the string. *)
Definition parseExponentPart (s : string) : option Z :=
  match s with
  | EmptyString => Some 0%Z
  | String c r =>
      if ((c =? "e") || (c =? "E"))%char then parseSignedInteger r else None
  end.

(** StrUnsignedDecimalLiteral *)
Definition parseUnsignedDecimal (s : string) : option jsnum :=
  if (s =? "Infinity")%string then Some PosInfinity
  else
    let '(ip, ni, r1) := scanDigits 10 s 0 0 in
    let '(m, nf, r2) :=
      match r1 with
      | String "." r => scanDigits 10 r ip 0
      | _ => (ip, 0%nat, r1)
      end in
    if (ni + nf =? 0)%nat then None
    else match parseExponentPart r2 with
         | Some e => Some (roundDouble (decimal m (e - Z.of_nat nf)))
         | None => None
         end.

(** StrDecimalLiteral *)
Definition parseDecimal (s : string) : option jsnum :=
  match s with
  | String "+" r => parseUnsignedDecimal r
  | String "-" r => option_map neg (parseUnsignedDecimal r)
  | _ => parseUnsignedDecimal s
  end.

(** NonDecimalIntegerLiteral: 0b, 0o and 0x literals. *)
Definition parseNonDecimal (s : string) : option jsnum :=
  match s with
  | String "0" (String p r) =>
      let radix :=
        if ((p =? "x") || (p =? "X"))%char then Some 16%Z
        else if ((p =? "o") || (p =? "O"))%char then Some 8%Z
        else if ((p =? "b") || (p =? "B"))%char then Some 2%Z
        else None in
      match radix with
      | Some rx =>
          match scanDigits rx r 0 0 with
          | (v, S _, EmptyString) => Some (roundDouble (inject_Z v))
          | _ => None
          end
      | None => None
      end
  | _ => None
  end.

(** StringToNumber: the value of [Number(s)] for a string [s]. *)
Definition StringToNumber (s : string) : jsnum :=
  let t := trim s in
  if isEmpty t then ofZ 0
  else match parseNonDecimal t with
       | Some n => n
       | None =>
           match parseDecimal t with
           | Some n => n
           | None => NaN
           end
       end.

End JsNumber.

(** ** The parts of zod used by the schema *)

Module Zod.
Import JsString JsNumber.

(** The result of [safeParse]: the parsed data, or the messages of the
    issues in the order the checks raised them. *)
Inductive SafeParseResult (A : Type) : Type :=
| success (data : A)
| failure (issues : list string).
Arguments success {A} data.
Arguments failure {A} issues.

Definition succeeded {A} (r : SafeParseResult A) : bool :=
  match r with success _ => true | failure _ => false end.

(** *** ZodString *)

Inductive ZodStringCheck : Type :=
| trim_check
| min_check (value : nat) (message : string)
| max_check (value : nat) (message : string)
| regex_check (test : string -> bool) (message : string)
| email_check (message : string).

(** The address pattern of zod 3 (case-insensitive): the string does not
    start with a dot and holds no two dots in a row; the local part is a
    run of letters, digits, underscore, apostrophe, plus, hyphen and dot
    ending in a letter, digit, underscore, plus or hyphen; after the at
    sign come one or more labels (a letter or digit, then letters, digits
    and hyphens), each followed by a dot, and a top level of two or more
    letters. *)
Definition isAlnum (c : ascii) : bool := isLetter c || isDigit c.

Definition isLocalChar (c : ascii) : bool :=
  isAlnum c
  || ((c =? "_") || (c =? "'") || (c =? "+") || (c =? "-") || (c =? "."))%char.

Definition isLocalLast (c : ascii) : bool :=
  isAlnum c || ((c =? "_") || (c =? "+") || (c =? "-"))%char.

Fixpoint lastIs (p : ascii -> bool) (s : string) : bool :=
  match s with
  | EmptyString => false
  | String c EmptyString => p c
  | String _ s' => lastIs p s'
  end.

Definition localPart (s : string) : bool :=
  forallb isLocalChar s && lastIs isLocalLast s.

Definition domainLabel (s : string) : bool :=
  match s with
  | EmptyString => false
  | String c r =>
      isAlnum c && forallb (fun d => isAlnum d || (d =? "-")%char) r
  end.

Definition topLevel (s : string) : bool :=
  (2 <=? String.length s)%nat && forallb isLetter s.

Fixpoint labelsThenTop (parts : list string) : bool :=
  match parts with
  | [] => false
  | [t] => topLevel t
  | l :: rest => domainLabel l && labelsThenTop rest
  end.

Definition domainPart (s : string) : bool :=
  match split "." s with
  | (_ :: _ :: _) as parts => labelsThenTop parts
  | _ => false
  end.

Definition startsWithDot (s : string) : bool :=
  match s with String "." _ => true | _ => false end.

Definition emailRegex (s : string) : bool :=
  negb (startsWithDot s) && negb (includes2 "." "." s)
  && match split "@" s with
     | [l; d] => localPart l && domainPart d
     | _ => false
     end.

(** The loop of [ZodString._parse]: the checks run in the order they
    were chained, [trim] replaces the data seen by the later ones, and a
    failed check adds an issue without stopping the loop. *)
Fixpoint runStringChecks (checks : list ZodStringCheck) (data : string)
  : string * list string :=
  match checks with
  | [] => (data, [])
  | trim_check :: rest => runStringChecks rest (trim data)
  | min_check v m :: rest =>
      let '(d, issues) := runStringChecks rest data in
      (d, if (String.length data <? v)%nat then m :: issues else issues)
  | max_check v m :: rest =>
      let '(d, issues) := runStringChecks rest data in
      (d, if (v <? String.length data)%nat then m :: issues else issues)
  | regex_check test m :: rest =>
      let '(d, issues) := runStringChecks rest data in
      (d, if test data then issues else m :: issues)
  | email_check m :: rest =>
      let '(d, issues) := runStringChecks rest data in
      (d, if emailRegex data then issues else m :: issues)
  end.

Definition parseString (checks : list ZodStringCheck) (input : string)
  : SafeParseResult string :=
  match runStringChecks checks input with
  | (d, []) => success d
  | (_, issues) => failure issues
  end.

(** *** ZodNumber *)

Inductive ZodNumberCheck : Type :=
| num_min (value : jsnum) (inclusive : bool) (message : string)
| num_max (value : jsnum) (inclusive : bool) (message : string).

Definition numberIssue (ck : ZodNumberCheck) (data : jsnum) : option string :=
  match ck with
  | num_min v inclusive m =>
      let tooSmall := if inclusive then lt data v else le data v in
      if tooSmall then Some m else None
  | num_max v inclusive m =>
      let tooBig := if inclusive then gt data v else ge data v in
      if tooBig then Some m else None
  end.

Fixpoint runNumberChecks (checks : list ZodNumberCheck) (data : jsnum)
  : list string :=
  match checks with
  | [] => []
  | ck :: rest =>
      match numberIssue ck data with
      | Some m => m :: runNumberChecks rest data
      | None => runNumberChecks rest data
      end
  end.

(** [ZodNumber._parse] on the coerced input: NaN is not of type number
    and ends the parse with the type error; otherwise the checks run. *)
Definition parseNumber (invalid_type_error : string)
  (checks : list ZodNumberCheck) (data : jsnum) : SafeParseResult jsnum :=
  match data with
  | NaN => failure [invalid_type_error]
  | _ =>
      match runNumberChecks checks data with
      | [] => success data
      | issues => failure issues
      end
  end.

Definition positive (message : string) : ZodNumberCheck :=
  num_min (ofZ 0) false message.

Definition max (value : Z) (message : string) : ZodNumberCheck :=
  num_max (ofZ value) true message.

End Zod.

(** ** The component *)

Module CreditApplicationForm.
Import JsString JsNumber Zod.

(** [type FormValues = z.infer<typeof formSchema>] *)
Record FormValues : Type := {
  amount : jsnum;
  name : string;
  taxid : string;
  nationality : string;
  email : string
}.

(** The values the schema is given.  In the form the amount is
    [undefined] until something is typed and then the text of the number
    input; a candidate record may also hold a number already. *)
Inductive AmountInput : Type :=
| undefined
| text (s : string)
| number (n : jsnum).

Record FieldValues : Type := {
  amountField : AmountInput;
  nameField : string;
  taxidField : string;
  nationalityField : string;
  emailField : string
}.

(** [Number(x)], the coercion of [z.coerce.number] *)
Definition Number (x : AmountInput) : jsnum :=
  match x with
  | undefined => NaN
  | text s => StringToNumber s
  | number n => n
  end.

(** *** formSchema *)

Definition amountSchema (x : AmountInput) : SafeParseResult jsnum :=
  parseNumber "Amount must be a valid number"
    [ positive "Amount must be greater than 0";
      max 10000000 "Amount cannot exceed 10,000,000" ]
    (Number x).

(** [/^[a-zA-Z\s'-]+$/] *)
Definition nameClass (c : ascii) : bool :=
  isLower c || isUpper c || isWhiteSpace c || (c =? "'")%char || (c =? "-")%char.

Definition nameChecks : list ZodStringCheck :=
  [ trim_check;
    min_check 2 "Name must be at least 2 characters";
    max_check 100 "Name must be less than 100 characters";
    regex_check (matchesClassPlus nameClass)
      "Name can only contain letters, spaces, hyphens, and apostrophes" ].

(** [/^[A-Z0-9]+$/i] *)
Definition taxidClass (c : ascii) : bool :=
  isUpper c || isLower c || isDigit c.

Definition taxidChecks : list ZodStringCheck :=
  [ trim_check;
    min_check 5 "Tax ID must be at least 5 characters";
    max_check 20 "Tax ID must be less than 20 characters";
    regex_check (matchesClassPlus taxidClass)
      "Tax ID can only contain letters and numbers" ].

Definition nationalityChecks : list ZodStringCheck :=
  [ min_check 1 "Please select your nationality" ].

Definition emailChecks : list ZodStringCheck :=
  [ trim_check;
    email_check "Please enter a valid email address";
    max_check 255 "Email must be less than 255 characters" ].

Definition nameSchema : string -> SafeParseResult string := parseString nameChecks.
Definition taxidSchema : string -> SafeParseResult string := parseString taxidChecks.
Definition nationalitySchema : string -> SafeParseResult string :=
  parseString nationalityChecks.
Definition emailSchema : string -> SafeParseResult string := parseString emailChecks.

Definition nationalities : list string :=
  [ "american"; "british"; "canadian"; "chinese"; "french"; "german";
    "indian"; "italian"; "japanese"; "spanish"; "other" ].

(** What [zodResolver(formSchema)] hands to the form: the parsed record,
    or for each field the message of its first issue. *)
Record FieldErrors : Type := {
  amountError : option string;
  nameError : option string;
  taxidError : option string;
  nationalityError : option string;
  emailError : option string
}.

Inductive ResolverResult : Type :=
| valid (data : FormValues)
| invalid (errors : FieldErrors).

Definition firstError {A} (r : SafeParseResult A) : option string :=
  match r with
  | success _ => None
  | failure issues => hd_error issues
  end.

Definition zodResolver (v : FieldValues) : ResolverResult :=
  let ra := amountSchema (amountField v) in
  let rn := nameSchema (nameField v) in
  let rt := taxidSchema (taxidField v) in
  let rc := nationalitySchema (nationalityField v) in
  let re := emailSchema (emailField v) in
  match ra, rn, rt, rc, re with
  | success a, success n, success t, success c, success e =>
      valid {| amount := a; name := n; taxid := t; nationality := c; email := e |}
  | _, _, _, _, _ =>
      invalid {| amountError := firstError ra; nameError := firstError rn;
                 taxidError := firstError rt; nationalityError := firstError rc;
                 emailError := firstError re |}
  end.

(** A record of the parsed type, given back to the schema as a candidate. *)
Definition candidate (d : FormValues) : FieldValues :=
  {| amountField := number (amount d); nameField := name d;
     taxidField := taxid d; nationalityField := nationality d;
     emailField := email d |}.

Definition accepts (v : FieldValues) : bool :=
  match zodResolver v with
  | valid _ => true
  | invalid _ => false
  end.

Definition defaultValues : FieldValues :=
  {| amountField := undefined; nameField := ""; taxidField := "";
     nationalityField := ""; emailField := "" |}.

(** *** State, events and effects *)

Record State : Type := {
  isSubmitting : bool;            (* useState(false) *)
  isSuccess : bool;               (* useState(false) *)
  values : FieldValues;           (* the values of useForm *)
  pending : list FormValues;      (* calls of onSubmit waiting on fetch *)
  timers : nat                    (* setTimeout callbacks not yet run *)
}.

Definition initial : State :=
  {| isSubmitting := false; isSuccess := false; values := defaultValues;
     pending := []; timers := 0 |}.

Inductive JsonValue : Type :=
| json_number (q : Q)
| json_string (s : string)
| json_null.

Definition Json : Type := list (string * JsonValue).

Definition jsonOfNumber (n : jsnum) : JsonValue :=
  match n with
  | Finite q => json_number q
  | _ => json_null
  end.

(** [JSON.stringify(data)], kept as the object it serialises. *)
Definition JSON_stringify (d : FormValues) : Json :=
  [ ("amount", jsonOfNumber (amount d));
    ("name", json_string (name d));
    ("taxid", json_string (taxid d));
    ("nationality", json_string (nationality d));
    ("email", json_string (email d)) ].

Inductive Effect : Type :=
| fetch (url method : string) (headers : list (string * string)) (body : Json)
| toast_success (title description : string)
| toast_error (title description : string)
| console_error (label : string)
| setTimeout (ms : nat)
| showErrors (errors : FieldErrors).

Inductive FetchOutcome : Type :=
| response (ok : bool)       (* the promise resolves with a Response *)
| rejected.                   (* the promise rejects: network error *)

Inductive Event : Type :=
| AmountChange (s : string)
| NameChange (s : string)
| TaxidChange (s : string)
| NationalitySelect (s : string)
| EmailChange (s : string)
| SubmitClick
| FetchSettled (i : nat) (r : FetchOutcome)
| TimerElapsed.

Definition setValues (st : State) (v : FieldValues) : State :=
  {| isSubmitting := isSubmitting st; isSuccess := isSuccess st; values := v;
     pending := pending st; timers := timers st |}.

(** *** onSubmit *)

(** From the call up to [await fetch(...)]. *)
Definition onSubmit (data : FormValues) (st : State) : State * list Effect :=
  ({| isSubmitting := true; isSuccess := isSuccess st; values := values st;
      pending := pending st ++ [data]; timers := timers st |},
   [ fetch "https://api.example.com/v1/form/submit" "POST"
       [("Content-Type", "application/json")] (JSON_stringify data) ]).

(** From the settlement of the fetch promise to the end of [finally]. *)
Definition onSubmitResume (r : FetchOutcome) (st : State) : State * list Effect :=
  match r with
  | response true =>
      ({| isSubmitting := false; isSuccess := true; values := values st;
          pending := pending st; timers := S (timers st) |},
       [ toast_success "Application Submitted"
           "Your credit application has been received successfully.";
         setTimeout 3000 ])
  | _ =>
      ({| isSubmitting := false; isSuccess := isSuccess st; values := values st;
          pending := pending st; timers := timers st |},
       [ toast_error "Submission Failed"
           "Unable to submit your application. Please try again.";
         console_error "Form submission error:" ])
  end.

(** The callback given to [setTimeout]: [form.reset(); setIsSuccess(false)]. *)
Definition resetCallback (st : State) : State :=
  {| isSubmitting := isSubmitting st; isSuccess := false; values := defaultValues;
     pending := pending st; timers := timers st |}.

(** [form.handleSubmit(onSubmit)]: the resolver runs on the current values
    and [onSubmit] is called with the parsed record only when it is valid. *)
Definition handleSubmit (st : State) : State * list Effect :=
  match zodResolver (values st) with
  | valid data => onSubmit data st
  | invalid errors => (st, [showErrors errors])
  end.

Fixpoint removeNth {A} (i : nat) (l : list A) : list A :=
  match i, l with
  | _, [] => []
  | O, _ :: t => t
  | S j, h :: t => h :: removeNth j t
  end.

(** The form, and with it the submit button, is rendered only while
    [isSuccess] is false; the button carries [disabled={isSubmitting}]. *)
Definition formRendered (st : State) : bool := negb (isSuccess st).
Definition buttonEnabled (st : State) : bool :=
  formRendered st && negb (isSubmitting st).

Definition onFieldChange (st : State) (v : FieldValues) : State * list Effect :=
  if formRendered st then (setValues st v, []) else (st, []).

Definition step (st : State) (ev : Event) : State * list Effect :=
  let v := values st in
  match ev with
  | AmountChange s =>
      onFieldChange st
        {| amountField := text s; nameField := nameField v;
           taxidField := taxidField v; nationalityField := nationalityField v;
           emailField := emailField v |}
  | NameChange s =>
      onFieldChange st
        {| amountField := amountField v; nameField := s;
           taxidField := taxidField v; nationalityField := nationalityField v;
           emailField := emailField v |}
  | TaxidChange s =>
      onFieldChange st
        {| amountField := amountField v; nameField := nameField v;
           taxidField := toUpperCase s; nationalityField := nationalityField v;
           emailField := emailField v |}
  | NationalitySelect s =>
      if existsb (String.eqb s) nationalities then
        onFieldChange st
          {| amountField := amountField v; nameField := nameField v;
             taxidField := taxidField v; nationalityField := s;
             emailField := emailField v |}
      else (st, [])
  | EmailChange s =>
      onFieldChange st
        {| amountField := amountField v; nameField := nameField v;
           taxidField := taxidField v; nationalityField := nationalityField v;
           emailField := s |}
  | SubmitClick =>
      if buttonEnabled st then handleSubmit st else (st, [])
  | FetchSettled i r =>
      match nth_error (pending st) i with
      | Some _ =>
          onSubmitResume r
            {| isSubmitting := isSubmitting st; isSuccess := isSuccess st;
               values := values st; pending := removeNth i (pending st);
               timers := timers st |}
      | None => (st, [])
      end
  | TimerElapsed =>
      match timers st with
      | O => (st, [])
      | S n =>
          (resetCallback
             {| isSubmitting := isSubmitting st; isSuccess := isSuccess st;
                values := values st; pending := pending st; timers := n |},
           [])
      end
  end.

(** A run of events from a state, with the effects in order. *)
Fixpoint run (st : State) (evs : list Event) : State * list Effect :=
  match evs with
  | [] => (st, [])
  | ev :: rest =>
      let '(st1, e1) := step st ev in
      let '(st2, e2) := run st1 rest in
      (st2, e1 ++ e2)
  end.

(** The states the component can be in: those a run of events leads to
    from the initial render. *)
Definition reachable (st : State) : Prop :=
  exists evs, st = fst (run initial evs).

Definition isFailure (r : FetchOutcome) : bool :=
  match r with
  | response true => false
  | _ => true
  end.

(** The constraints of the data model on a parsed record, field by field. *)
Definition amountConstraint (a : jsnum) : Prop :=
  exists q, a = Finite q /\ (0 < q)%Q /\ (q <= 10000000)%Q.

Definition nameConstraint (s : string) : Prop :=
  (2 <= String.length s <= 100)%nat /\ matchesClassPlus nameClass s = true.

Definition taxidConstraint (s : string) : Prop :=
  (5 <= String.length s <= 20)%nat /\ matchesClassPlus taxidClass s = true.

Definition nationalityConstraint (s : string) : Prop :=
  (1 <= String.length s)%nat.

Definition emailConstraint (s : string) : Prop :=
  emailRegex s = true /\ (String.length s <= 255)%nat.

Definition satisfiesConstraints (d : FormValues) : Prop :=
  amountConstraint (amount d) /\ nameConstraint (name d)
  /\ taxidConstraint (taxid d) /\ nationalityConstraint (nationality d)
  /\ emailConstraint (email d).

(** What the two flags say about the calls in flight and the timers. *)
Definition consistent (st : State) : Prop :=
  match isSubmitting st, isSuccess st with
  | false, false => pending st = [] /\ timers st = 0%nat
  | true, false => (exists d, pending st = [d]) /\ timers st = 0%nat
  | false, true => pending st = [] /\ timers st = 1%nat
  | true, true => False
  end.

(** What the handlers keep true of the stored values. *)
Definition normalized (st : State) : Prop :=
  toUpperCase (taxidField (values st)) = taxidField (values st)
  /\ (nationalityField (values st) = ""
      \/ In (nationalityField (values st)) nationalities).

(** The sample application: the five fields as the user types them. *)
Definition sampleEntry : list Event :=
  [ AmountChange "1500.00"; NameChange "John Doe"; TaxidChange "ab123456c";
    NationalitySelect "american"; EmailChange "john@x.com" ].

Definition sampleRecord : FormValues :=
  {| amount := ofZ 1500; name := "John Doe"; taxid := "AB123456C";
     nationality := "american"; email := "john@x.com" |}.

Definition isFetch (e : Effect) : bool :=
  match e with fetch _ _ _ _ => true | _ => false end.

Definition countFetch (es : list Effect) : nat :=
  List.length (filter isFetch es).

(** *** What the JSX renders *)




(** The characters a tax ID typed into the form can be posted with. *)
Definition isUpperOrDigit (c : ascii) : bool := isUpper c || isDigit c.

Definition isToast (e : Effect) : bool :=
  match e with
  | toast_success _ _ | toast_error _ _ => true
  | _ => false
  end.

Definition countToast (es : list Effect) : nat :=
  List.length (filter isToast es).

(** The request [onSubmit] sends for a record. *)
Definition submitRequest (body : Json) : Effect :=
  fetch "https://api.example.com/v1/form/submit" "POST"
    [("Content-Type", "application/json")] body.

End CreditApplicationForm.

(** ** The component in the browser

    [CreditApplicationForm.step] takes an event when the page has been
    rendered after the previous one and runs the submit through the
    resolver at once.  Here the pieces are separate tasks, as the browser
    runs them: the page shows the flags of the last render,
    [form.handleSubmit] awaits the resolver before it calls [onSubmit],
    and the browser validates the controls (the form has no [noValidate])
    before it fires the submit event. *)

Module Browser.
Import JsString JsNumber Zod CreditApplicationForm.

Record Page : Type := {
  component : State;
  shownSubmitting : bool;            (* isSubmitting at the last render *)
  shownSuccess : bool;               (* isSuccess at the last render *)
  validating : list ResolverResult   (* calls of handleSubmit awaiting the resolver *)
}.

Definition firstRender : Page :=
  {| component := initial; shownSubmitting := false; shownSuccess := false;
     validating := [] |}.

(** The page right after a render of a component with nothing validating. *)
Definition rendered (st : State) : Page :=
  {| component := st; shownSubmitting := isSubmitting st;
     shownSuccess := CreditApplicationForm.isSuccess st; validating := [] |}.

Inductive Task : Type :=
| Input (ev : Event)                      (* a change event of a field *)
| Submit                                  (* the submit button is activated *)
| ResolverSettled (i : nat)               (* the i-th awaited resolver returns *)
| RequestSettled (i : nat) (r : FetchOutcome)
| TimerFired
| Render.

(** What the [onChange] of each field stores. *)
Definition edit (ev : Event) (v : FieldValues) : FieldValues :=
  match ev with
  | AmountChange s =>
      {| amountField := text s; nameField := nameField v;
         taxidField := taxidField v; nationalityField := nationalityField v;
         emailField := emailField v |}
  | NameChange s =>
      {| amountField := amountField v; nameField := s;
         taxidField := taxidField v; nationalityField := nationalityField v;
         emailField := emailField v |}
  | TaxidChange s =>
      {| amountField := amountField v; nameField := nameField v;
         taxidField := toUpperCase s; nationalityField := nationalityField v;
         emailField := emailField v |}
  | NationalitySelect s =>
      if existsb (String.eqb s) nationalities then
        {| amountField := amountField v; nameField := nameField v;
           taxidField := taxidField v; nationalityField := s;
           emailField := emailField v |}
      else v
  | EmailChange s =>
      {| amountField := amountField v; nameField := nameField v;
         taxidField := taxidField v; nationalityField := nationalityField v;
         emailField := s |}
  | _ => v
  end.

Definition withComponent (p : Page) (st : State) : Page :=
  {| component := st; shownSubmitting := shownSubmitting p;
     shownSuccess := shownSuccess p; validating := validating p |}.

Section Tasks.

(** The browser's constraint validation of the controls (the number input
    with its step, the email input), which decides whether a submit event
    is fired at all. *)
Variable native : FieldValues -> bool.

(** The submit button as the page shows it: present while the form is
    shown, and not disabled. *)
Definition canSubmit (p : Page) : bool :=
  negb (shownSuccess p) && negb (shownSubmitting p).

Definition perform (p : Page) (t : Task) : Page * list Effect :=
  let st := component p in
  match t with
  | Input ev =>
      if shownSuccess p then (p, [])
      else (withComponent p (setValues st (edit ev (values st))), [])
  | Submit =>
      if canSubmit p && native (values st) then
        ({| component := st; shownSubmitting := shownSubmitting p;
            shownSuccess := shownSuccess p;
            validating := validating p ++ [zodResolver (values st)] |}, [])
      else (p, [])
  | ResolverSettled i =>
      match nth_error (validating p) i with
      | Some result =>
          let '(st', effs) :=
            match result with
            | valid data => onSubmit data st
            | invalid errors => (st, [showErrors errors])
            end in
          ({| component := st'; shownSubmitting := shownSubmitting p;
              shownSuccess := shownSuccess p;
              validating := removeNth i (validating p) |}, effs)
      | None => (p, [])
      end
  | RequestSettled i r =>
      let '(st', effs) := step st (FetchSettled i r) in (withComponent p st', effs)
  | TimerFired =>
      let '(st', effs) := step st TimerElapsed in (withComponent p st', effs)
  | Render =>
      ({| component := st; shownSubmitting := isSubmitting st;
          shownSuccess := CreditApplicationForm.isSuccess st;
          validating := validating p |}, [])
  end.

Fixpoint play (p : Page) (ts : list Task) : Page * list Effect :=
  match ts with
  | [] => (p, [])
  | t :: rest =>
      let '(p1, e1) := perform p t in
      let '(p2, e2) := play p1 rest in
      (p2, e1 ++ e2)
  end.

Definition attainable (p : Page) : Prop :=
  exists ts, p = fst (play firstRender ts).

End Tasks.

(** The tasks an event of [CreditApplicationForm.step] stands for. *)
Definition tasksOf (ev : Event) : list Task :=
  match ev with
  | SubmitClick => [Submit; ResolverSettled 0; Render]
  | FetchSettled i r => [RequestSettled i r; Render]
  | TimerElapsed => [TimerFired; Render]
  | _ => [Input ev; Render]
  end.


End Browser.

(** * Properties *)

Import JsString JsNumber Zod CreditApplicationForm.

(** ** Strings *)

Section StringFacts.

Lemma trimEnd_keeps_head c r :
  isWhiteSpace c = false -> trimEnd (String c r) = String c (trimEnd r).
Proof.
  intros Hc. cbn [trimEnd]. destruct (trimEnd r); [rewrite Hc|]; reflexivity.
Qed.

Lemma trimEnd_idempotent s : trimEnd (trimEnd s) = trimEnd s.
Proof.
  induction s as [|c s IH]; [reflexivity|].
  cbn [trimEnd]. destruct (trimEnd s) as [|d t] eqn:E.
  - destruct (isWhiteSpace c) eqn:Hc; [reflexivity|].
    cbn [trimEnd]. now rewrite Hc.
  - change (trimEnd (String c (String d t))) with
      (match trimEnd (String d t) with
       | EmptyString => if isWhiteSpace c then EmptyString else String c EmptyString
       | t' => String c t'
       end).
    now rewrite IH.
Qed.

Lemma trimStart_head s :
  trimStart s = EmptyString
  \/ exists c r, trimStart s = String c r /\ isWhiteSpace c = false.
Proof.
  induction s as [|c s IH]; [now left|].
  cbn [trimStart]. destruct (isWhiteSpace c) eqn:Hc; [exact IH|].
  right. now exists c, s.
Qed.

Lemma trimStart_trimEnd_trimStart s :
  trimStart (trimEnd (trimStart s)) = trimEnd (trimStart s).
Proof.
  destruct (trimStart_head s) as [E | (c & r & E & Hc)]; rewrite E.
  - reflexivity.
  - rewrite (trimEnd_keeps_head _ _ Hc). cbn [trimStart]. now rewrite Hc.
Qed.

Lemma trim_idempotent s : trim (trim s) = trim s.
Proof.
  unfold trim. rewrite trimStart_trimEnd_trimStart. apply trimEnd_idempotent.
Qed.

Lemma trimStart_length s : (String.length (trimStart s) <= String.length s)%nat.
Proof.
  induction s as [|c s IH]; cbn [trimStart String.length]; [lia|].
  destruct (isWhiteSpace c); cbn [String.length]; lia.
Qed.

Lemma trimEnd_length s : (String.length (trimEnd s) <= String.length s)%nat.
Proof.
  induction s as [|c s IH]; cbn [trimEnd String.length]; [lia|].
  destruct (trimEnd s); [destruct (isWhiteSpace c)|]; cbn [String.length] in *; lia.
Qed.

Lemma trim_length s : (String.length (trim s) <= String.length s)%nat.
Proof.
  unfold trim. pose proof (trimEnd_length (trimStart s)).
  pose proof (trimStart_length s). lia.
Qed.

Lemma upperChar_idempotent c : upperChar (upperChar c) = upperChar c.
Proof. destruct c as [[] [] [] [] [] [] [] []]; reflexivity. Qed.

Lemma toUpperCase_idempotent s : toUpperCase (toUpperCase s) = toUpperCase s.
Proof.
  induction s as [|c s IH]; cbn [toUpperCase]; [reflexivity|].
  now rewrite upperChar_idempotent, IH.
Qed.

Lemma toUpperCase_length s : String.length (toUpperCase s) = String.length s.
Proof. induction s as [|c s IH]; cbn; congruence. Qed.

End StringFacts.

(** ** The field schemas *)

Section SchemaFacts.

Ltac string_checks :=
  cbv [nameSchema taxidSchema emailSchema nationalitySchema parseString
       nameChecks taxidChecks emailChecks nationalityChecks];
  cbn [runStringChecks].

Ltac split_checks :=
  repeat match goal with
    | |- context [if ?b then _ else _] => destruct b eqn:?
    | H : context [if ?b then _ else _] |- _ => destruct b eqn:?
    end.

Ltac nat_bools :=
  repeat match goal with
    | H : (_ <? _)%nat = true |- _ => apply Nat.ltb_lt in H
    | H : (_ <? _)%nat = false |- _ => apply Nat.ltb_ge in H
    end.

Lemma nameSchema_success s d :
  nameSchema s = success d <-> d = trim s /\ nameConstraint (trim s).
Proof.
  unfold nameConstraint. string_checks. split.
  - intros H. split_checks; try discriminate.
    inversion H; subst. nat_bools. repeat split; lia || assumption || reflexivity.
  - intros [-> [[Hlo Hhi] Hre]]. rewrite Hre.
    apply Nat.ltb_ge in Hlo. rewrite Hlo.
    assert (Hhi' : (100 <? String.length (trim s))%nat = false)
      by (apply Nat.ltb_ge; lia).
    now rewrite Hhi'.
Qed.

Lemma taxidSchema_success s d :
  taxidSchema s = success d <-> d = trim s /\ taxidConstraint (trim s).
Proof.
  unfold taxidConstraint. string_checks. split.
  - intros H. split_checks; try discriminate.
    inversion H; subst. nat_bools. repeat split; lia || assumption || reflexivity.
  - intros [-> [[Hlo Hhi] Hre]]. rewrite Hre.
    apply Nat.ltb_ge in Hlo. rewrite Hlo.
    assert (Hhi' : (20 <? String.length (trim s))%nat = false)
      by (apply Nat.ltb_ge; lia).
    now rewrite Hhi'.
Qed.

Lemma emailSchema_success s d :
  emailSchema s = success d <-> d = trim s /\ emailConstraint (trim s).
Proof.
  unfold emailConstraint. string_checks. split.
  - intros H. split_checks; try discriminate.
    inversion H; subst. nat_bools. repeat split; lia || assumption || reflexivity.
  - intros [-> [Hre Hhi]]. rewrite Hre.
    assert (Hhi' : (255 <? String.length (trim s))%nat = false)
      by (apply Nat.ltb_ge; lia).
    now rewrite Hhi'.
Qed.

Lemma nationalitySchema_success s d :
  nationalitySchema s = success d <-> d = s /\ nationalityConstraint s.
Proof.
  unfold nationalityConstraint. string_checks. split.
  - intros H. split_checks; try discriminate.
    inversion H; subst. nat_bools. split; [reflexivity | lia].
  - intros [-> Hlo]. apply Nat.ltb_ge in Hlo. now rewrite Hlo.
Qed.

Lemma amountSchema_success x a :
  amountSchema x = success a <-> a = Number x /\ amountConstraint (Number x).
Proof.
  unfold amountSchema, amountConstraint, parseNumber.
  destruct (Number x) as [| |q|] eqn:E.
  - split; [discriminate | intros [_ (q & Hq & _)]; discriminate].
  - cbn. split; [discriminate | intros [_ (q & Hq & _)]; discriminate].
  - cbn. unfold Qltb.
    destruct (Qle_bool q (inject_Z 0)) eqn:H0;
      destruct (Qle_bool q (inject_Z 10000000)) eqn:H1; cbn.
    all: split; [intros H; try discriminate | intros [-> (q' & Hq & Hpos & Hmax)]].
    all: try (injection Hq as <-).
    all: try (apply Qle_bool_iff in H0; exfalso;
              apply (Qlt_not_le _ _ Hpos); exact H0).
    + injection H as <-. split; [reflexivity|]. exists q.
      repeat split.
      * apply Qnot_le_lt. intros Hle. apply Qle_bool_iff in Hle.
        change (inject_Z 0) with 0%Q in H0. congruence.
      * now apply Qle_bool_iff in H1.
    + reflexivity.
    + apply Qle_bool_iff in Hmax.
      change (inject_Z 10000000) with 10000000%Q in H1. congruence.
  - cbn. split; [discriminate | intros [_ (q & Hq & _)]; discriminate].
Qed.

End SchemaFacts.

(** ** The resolver *)

Section ResolverFacts.

Lemma zodResolver_valid v d :
  zodResolver v = valid d <->
  amountSchema (amountField v) = success (amount d)
  /\ nameSchema (nameField v) = success (name d)
  /\ taxidSchema (taxidField v) = success (taxid d)
  /\ nationalitySchema (nationalityField v) = success (nationality d)
  /\ emailSchema (emailField v) = success (email d).
Proof.
  unfold zodResolver. split.
  - destruct (amountSchema (amountField v)), (nameSchema (nameField v)),
      (taxidSchema (taxidField v)), (nationalitySchema (nationalityField v)),
      (emailSchema (emailField v)); intros H; try discriminate.
    now injection H as <-.
  - intros (-> & -> & -> & -> & ->). now destruct d.
Qed.

(** A record the resolver lets through is the trimmed, coerced input and
    meets every field constraint. *)
Lemma zodResolver_valid_fields v d :
  zodResolver v = valid d ->
  amount d = Number (amountField v)
  /\ name d = trim (nameField v)
  /\ taxid d = trim (taxidField v)
  /\ nationality d = nationalityField v
  /\ email d = trim (emailField v)
  /\ satisfiesConstraints d.
Proof.
  intros H. apply zodResolver_valid in H as (Ha & Hn & Ht & Hc & He).
  apply amountSchema_success in Ha as [Ha Ha'].
  apply nameSchema_success in Hn as [Hn Hn'].
  apply taxidSchema_success in Ht as [Ht Ht'].
  apply nationalitySchema_success in Hc as [Hc Hc'].
  apply emailSchema_success in He as [He He'].
  unfold satisfiesConstraints.
  rewrite Ha, Hn, Ht, Hc, He. tauto.
Qed.

(** The schema accepts again what it has produced. *)
Lemma zodResolver_candidate v d :
  zodResolver v = valid d -> zodResolver (candidate d) = valid d.
Proof.
  intros H. apply zodResolver_valid in H as (Ha & Hn & Ht & Hc & He).
  apply amountSchema_success in Ha as [Ha Ha'].
  apply nameSchema_success in Hn as [Hn Hn'].
  apply taxidSchema_success in Ht as [Ht Ht'].
  apply nationalitySchema_success in Hc as [Hc Hc'].
  apply emailSchema_success in He as [He He'].
  apply zodResolver_valid. cbn [candidate amountField nameField taxidField
                                  nationalityField emailField].
  repeat split.
  - apply amountSchema_success. cbn [Number]. now rewrite Ha.
  - apply nameSchema_success. rewrite Hn, trim_idempotent. now split.
  - apply taxidSchema_success. rewrite Ht, trim_idempotent. now split.
  - apply nationalitySchema_success. rewrite Hc. now split.
  - apply emailSchema_success. rewrite He, trim_idempotent. now split.
Qed.

End ResolverFacts.

(** ** The controller *)

Section ControllerFacts.

Lemma existsb_eqb_In s l : existsb (String.eqb s) l = true -> In s l.
Proof.
  intros H. apply existsb_exists in H as (x & Hin & Heq).
  apply String.eqb_eq in Heq. now subst.
Qed.

Lemma step_consistent st ev : consistent st -> consistent (fst (step st ev)).
Proof.
  unfold consistent.
  destruct st as [sub suc v p t]. cbn [isSubmitting CreditApplicationForm.isSuccess pending timers].
  intros H.
  destruct ev as [s|s|s|s|s| |i r|]; cbn [step].
  1-3,5: unfold onFieldChange, formRendered; cbn;
         destruct suc; cbn; exact H.
  - destruct (existsb (String.eqb s) nationalities); [|exact H].
    unfold onFieldChange, formRendered; cbn. destruct suc; cbn; exact H.
  - unfold formRendered, buttonEnabled, handleSubmit; cbn.
    destruct suc, sub; cbn; try exact H.
    destruct (zodResolver v); cbn; [|exact H].
    destruct H as [-> ->]. split; [eexists; reflexivity | reflexivity].
  - cbn. destruct sub, suc; try contradiction.
    + destruct H as [[d ->] ->].
      destruct i as [|i]; cbn; [|destruct i; cbn; split; eauto].
      destruct r as [[]|]; cbn; auto.
    + destruct H as [-> ->]. destruct i; cbn; auto.
    + destruct H as [-> ->]. destruct i; cbn; auto.
  - cbn. destruct t as [|t]; cbn; [exact H|].
    destruct sub, suc; try contradiction; destruct H as [H1 H2]; try discriminate.
    injection H2 as ->. auto.
Qed.

Lemma step_normalized st ev : normalized st -> normalized (fst (step st ev)).
Proof.
  unfold normalized.
  destruct st as [sub suc v p t]. cbn [values]. intros [Hu Hn].
  destruct ev as [s|s|s|s|s| |i r|]; cbn [step].
  1-3,5: unfold onFieldChange, formRendered; cbn;
         destruct suc; cbn; auto using toUpperCase_idempotent.
  - destruct (existsb (String.eqb s) nationalities) eqn:E; [|cbn; auto].
    apply existsb_eqb_In in E.
    unfold onFieldChange, formRendered; cbn. destruct suc; cbn; auto.
  - unfold formRendered, buttonEnabled, handleSubmit; cbn.
    destruct suc, sub; cbn; auto.
    destruct (zodResolver v); cbn; auto.
  - cbn. destruct (nth_error p i); cbn; auto.
    destruct r as [[]|]; cbn; auto.
  - cbn. destruct t; cbn; auto.
Qed.

Lemma run_app st evs ev :
  fst (run st (evs ++ [ev])) = fst (step (fst (run st evs)) ev).
Proof.
  revert st. induction evs as [|e evs IH]; intros st; cbn [run app fst].
  - destruct (step st ev). reflexivity.
  - destruct (step st e) as [st1 e1]. specialize (IH st1).
    destruct (run st1 (evs ++ [ev])), (run st1 evs). cbn [fst] in *. exact IH.
Qed.

Lemma reachable_ind' (P : State -> Prop) :
  P initial ->
  (forall st ev, reachable st -> P st -> P (fst (step st ev))) ->
  forall st, reachable st -> P st.
Proof.
  intros H0 Hs st [evs ->].
  induction evs as [|ev evs IH] using rev_ind; [exact H0|].
  rewrite run_app. apply Hs; [now exists evs | exact IH].
Qed.

Lemma reachable_step st ev : reachable st -> reachable (fst (step st ev)).
Proof.
  intros [evs ->]. exists (evs ++ [ev]). now rewrite run_app.
Qed.

Lemma reachable_consistent st : reachable st -> consistent st.
Proof.
  apply reachable_ind'.
  - unfold consistent; cbn. auto.
  - intros; now apply step_consistent.
Qed.

Lemma reachable_normalized st : reachable st -> normalized st.
Proof.
  apply reachable_ind'.
  - unfold normalized; cbn. auto.
  - intros; now apply step_normalized.
Qed.

End ControllerFacts.

(** * The claims of the specification *)

(** ** Validation *)

(** C1, as stated, fails: the schema of the nationality field is
    [z.string().min(1)], so a candidate record whose nationality is a string
    outside the enumerated set is accepted. *)
Lemma nationality_outside_set_accepted :
  ~ In "martian" nationalities
  /\ nationalitySchema "martian" = success "martian"
  /\ accepts {| amountField := number (ofZ 1500); nameField := "John Doe";
                taxidField := "AB123456C"; nationalityField := "martian";
                emailField := "john@x.com" |} = true.
Proof.
  split; [|split; reflexivity].
  cbn. intuition discriminate.
Qed.

(** C1, amended: the schema accepts the nationality field exactly when it
    is a non-empty string, so every member of the enumerated set is accepted
    and the empty default is rejected; the set itself is enforced by the
    Select control, which offers no other value, so every record the form
    posts has its nationality in the set. *)
Theorem nationality_nonempty_and_selected_from_set :
  (forall s, succeeded (nationalitySchema s) = true <-> s <> "")
  /\ (forall s, In s nationalities -> nationalitySchema s = success s)
  /\ (forall st ev url method headers body,
        reachable st ->
        In (fetch url method headers body) (snd (step st ev)) ->
        exists d, body = JSON_stringify d /\ In (nationality d) nationalities).
Proof.
  split; [|split].
  - intros s. destruct s; cbn; split; congruence.
  - intros s Hin. apply nationalitySchema_success. split; [reflexivity|].
    unfold nationalityConstraint. destruct s; cbn in *; [|lia].
    intuition discriminate.
  - intros st ev url method headers body Hr Hin.
    apply reachable_normalized in Hr as [_ Hn].
    destruct ev; cbn [step] in Hin;
      try (unfold onFieldChange in Hin; destruct (formRendered st);
           cbn in Hin; contradiction).
    + destruct (existsb (String.eqb s) nationalities); [|cbn in Hin; contradiction].
      unfold onFieldChange in Hin; destruct (formRendered st);
        cbn in Hin; contradiction.
    + destruct (buttonEnabled st); [|cbn in Hin; contradiction].
      unfold handleSubmit in Hin.
      destruct (zodResolver (values st)) as [d|e] eqn:E; cbn in Hin.
      * destruct Hin as [Hin|[]]. injection Hin as _ _ _ <-.
        exists d. split; [reflexivity|].
        pose proof (zodResolver_valid_fields _ _ E) as (_ & _ & _ & Hc & _ & Hs).
        destruct Hs as (_ & _ & _ & Hne & _). unfold nationalityConstraint in Hne.
        rewrite Hc in *. destruct Hn as [Hn|Hn]; [|exact Hn].
        rewrite Hn in Hne. cbn in Hne. lia.
      * destruct Hin as [Hin|[]]. discriminate.
    + destruct (nth_error (pending st) i); [|cbn in Hin; contradiction].
      destruct r as [[]|]; cbn in Hin; intuition discriminate.
    + destruct (timers st); cbn in Hin; contradiction.
Qed.

Lemma nationality_nonempty_and_selected_from_set_witness :
  nationalitySchema "german" = success "german"
  /\ exists d, JSON_stringify sampleRecord = JSON_stringify d
               /\ In (nationality d) nationalities.
Proof.
  destruct nationality_nonempty_and_selected_from_set as (_ & Hmem & Hpost).
  split.
  - apply (Hmem "german"). cbn. tauto.
  - apply (Hpost (fst (run initial sampleEntry)) SubmitClick
             "https://api.example.com/v1/form/submit" "POST"
             [("Content-Type", "application/json")]).
    + exists sampleEntry. reflexivity.
    + left. reflexivity.
Defined.

(** C2: the amount is rejected when it is at most 0 or above 10,000,000,
    and accepted exactly when 0 < a <= 10,000,000 (a being the number the
    input coerces to; NaN and the infinities are rejected). *)
Theorem amount_accepted_iff_in_range (x : AmountInput) :
  (forall q, Number x = Finite q -> (q <= 0 \/ 10000000 < q)%Q ->
             succeeded (amountSchema x) = false)
  /\ (succeeded (amountSchema x) = true <->
      exists q, Number x = Finite q /\ (0 < q)%Q /\ (q <= 10000000)%Q).
Proof.
  assert (Hiff : succeeded (amountSchema x) = true <->
                 exists q, Number x = Finite q /\ (0 < q)%Q /\ (q <= 10000000)%Q).
  { split.
    - destruct (amountSchema x) as [a|] eqn:E; [intros _|discriminate].
      apply amountSchema_success in E as [_ E]. exact E.
    - intros H.
      assert (E : amountSchema x = success (Number x))
        by (apply amountSchema_success; split; [reflexivity | exact H]).
      now rewrite E. }
  split; [|exact Hiff].
  intros q Hq Hout.
  apply Bool.not_true_is_false. intros E.
  apply Hiff in E as (q' & Hq' & Hpos & Hmax).
  rewrite Hq in Hq'. injection Hq' as <-.
  destruct Hout as [Hle|Hgt].
  - exfalso. apply (Qlt_not_le _ _ Hpos Hle).
  - exfalso. apply (Qlt_not_le _ _ Hgt Hmax).
Qed.

Lemma amount_accepted_iff_in_range_witness :
  succeeded (amountSchema (text "0")) = false
  /\ succeeded (amountSchema (text "10000000.5")) = false
  /\ exists q, Number (text "1500.00") = Finite q /\ (0 < q)%Q /\ (q <= 10000000)%Q.
Proof.
  split; [|split].
  - apply (proj1 (amount_accepted_iff_in_range (text "0")) 0%Q).
    + reflexivity.
    + left. apply Qle_refl.
  - apply (proj1 (amount_accepted_iff_in_range (text "10000000.5"))
             (20000001 # 2)%Q).
    + reflexivity.
    + right. reflexivity.
  - apply (proj2 (amount_accepted_iff_in_range (text "1500.00"))).
    reflexivity.
Defined.

(** ** Submission *)

(** C6: the only step that turns [isSubmitting] on, and the only step that
    issues a request, is a submit whose values the resolver accepts: the
    handler runs on the parsed record, every field of which meets its
    constraint (and which the schema accepts again as a candidate). *)
Theorem submitting_only_after_validation (st : State) (ev : Event) :
  (isSubmitting st = false /\ isSubmitting (fst (step st ev)) = true)
  \/ (exists url method headers body,
        In (fetch url method headers body) (snd (step st ev))) ->
  ev = SubmitClick
  /\ exists d,
       zodResolver (values st) = valid d
       /\ satisfiesConstraints d
       /\ accepts (candidate d) = true
       /\ step st ev = onSubmit d st.
Proof.
  intros H.
  assert (Hquiet : forall s, (isSubmitting st = false /\ isSubmitting s = true)
                             \/ (exists url method headers body,
                                   In (fetch url method headers body) (@nil Effect))
                             -> isSubmitting s = isSubmitting st -> False).
  { intros s [[H1 H2]|(?&?&?&?&[])] Heq. congruence. }
  destruct ev as [s|s|s|s|s| |i r|]; cbn [step] in H.
  1-3,5: exfalso; unfold onFieldChange in H; destruct (formRendered st);
         cbn [fst snd] in H; (eapply Hquiet; [exact H | reflexivity]).
  - exfalso. destruct (existsb (String.eqb s) nationalities);
      [unfold onFieldChange in H; destruct (formRendered st)|];
      cbn [fst snd] in H; (eapply Hquiet; [exact H | reflexivity]).
  - split; [reflexivity|]. cbn [step].
    destruct (buttonEnabled st);
      [|exfalso; cbn [fst snd] in H; (eapply Hquiet; [exact H | reflexivity])].
    unfold handleSubmit in *.
    destruct (zodResolver (values st)) as [d|e] eqn:E.
    + exists d. pose proof (zodResolver_valid_fields _ _ E) as (_&_&_&_&_&Hs).
      pose proof (zodResolver_candidate _ _ E) as Hc.
      unfold accepts. rewrite Hc. repeat split; try reflexivity; apply Hs.
    + exfalso. cbn [fst snd] in H.
      destruct H as [[H1 H2]|(?&?&?&?&[Hin|[]])]; [congruence | discriminate].
  - exfalso. destruct (nth_error (pending st) i);
      [|cbn [fst snd] in H; (eapply Hquiet; [exact H | reflexivity])].
    destruct r as [[]|]; cbn in H;
      destruct H as [[H1 H2]|(?&?&?&?&[Hin|[Hin|[]]])]; discriminate.
  - exfalso. destruct (timers st); cbn [fst snd] in H;
      (eapply Hquiet; [exact H | reflexivity]).
Qed.

Lemma submitting_only_after_validation_witness :
  let st := fst (run initial sampleEntry) in
  SubmitClick = SubmitClick
  /\ exists d,
       zodResolver (values st) = valid d
       /\ satisfiesConstraints d
       /\ accepts (candidate d) = true
       /\ step st SubmitClick = onSubmit d st.
Proof.
  apply (submitting_only_after_validation (fst (run initial sampleEntry)) SubmitClick).
  left. split; reflexivity.
Defined.

(** C7: the sample application.  The tax ID typed as "ab123456c" is stored
    as "AB123456C", the resolver accepts the values, and the submit issues
    exactly one request: a POST whose JSON body carries the five fields. *)
Theorem sample_application_posted_once :
  let st := fst (run initial sampleEntry) in
  taxidField (values st) = "AB123456C"
  /\ zodResolver (values st) = valid sampleRecord
  /\ snd (run initial (sampleEntry ++ [SubmitClick])) =
       [ fetch "https://api.example.com/v1/form/submit" "POST"
           [("Content-Type", "application/json")]
           [ ("amount", json_number 1500);
             ("name", json_string "John Doe");
             ("taxid", json_string "AB123456C");
             ("nationality", json_string "american");
             ("email", json_string "john@x.com") ] ]
  /\ countFetch (snd (run initial (sampleEntry ++ [SubmitClick]))) = 1%nat
  /\ isSubmitting (fst (run initial (sampleEntry ++ [SubmitClick]))) = true
  /\ pending (fst (run initial (sampleEntry ++ [SubmitClick]))) = [sampleRecord].
Proof. repeat split; reflexivity. Qed.

(** C9: the name, tax ID and email schemas validate the trimmed input.
    Their verdict on a string is their verdict on its trimmed form; a
    string whose trimmed length is outside the bounds is rejected whatever
    its raw length; and the record the resolver produces holds the trimmed
    values. *)
Theorem string_fields_validated_after_trim :
  (forall s, nameSchema s = nameSchema (trim s)
             /\ taxidSchema s = taxidSchema (trim s)
             /\ emailSchema s = emailSchema (trim s))
  /\ (forall s, (String.length (trim s) < 2 \/ 100 < String.length (trim s))%nat ->
                succeeded (nameSchema s) = false)
  /\ (forall s, (String.length (trim s) < 5 \/ 20 < String.length (trim s))%nat ->
                succeeded (taxidSchema s) = false)
  /\ (forall s, (255 < String.length (trim s))%nat ->
                succeeded (emailSchema s) = false)
  /\ (forall v d, zodResolver v = valid d ->
                  name d = trim (nameField v)
                  /\ taxid d = trim (taxidField v)
                  /\ email d = trim (emailField v)).
Proof.
  split; [|split; [|split; [|split]]].
  - intros s.
    cbv [nameSchema taxidSchema emailSchema parseString
         nameChecks taxidChecks emailChecks].
    cbn [runStringChecks]. rewrite trim_idempotent. repeat split.
  - intros s Hlen. apply Bool.not_true_is_false. intros Hok.
    destruct (nameSchema s) as [d|] eqn:E; [|discriminate].
    apply nameSchema_success in E as [_ [Hb _]]. lia.
  - intros s Hlen. apply Bool.not_true_is_false. intros Hok.
    destruct (taxidSchema s) as [d|] eqn:E; [|discriminate].
    apply taxidSchema_success in E as [_ [Hb _]]. lia.
  - intros s Hlen. apply Bool.not_true_is_false. intros Hok.
    destruct (emailSchema s) as [d|] eqn:E; [|discriminate].
    apply emailSchema_success in E as [_ [_ Hb]]. lia.
  - intros v d E.
    apply zodResolver_valid_fields in E as (_ & Hn & Ht & _ & He & _).
    auto.
Qed.

Lemma string_fields_validated_after_trim_witness :
  (String.length "  a  " >= 2)%nat
  /\ succeeded (nameSchema "  a  ") = false
  /\ (String.length " ab12 " >= 5)%nat
  /\ succeeded (taxidSchema " ab12 ") = false
  /\ name sampleRecord = trim (nameField (values (fst (run initial sampleEntry)))).
Proof.
  destruct string_fields_validated_after_trim as (_ & Hname & Htax & _ & Hrec).
  split; [cbn; lia|]. split; [|split; [cbn; lia|split]].
  - apply (Hname "  a  "). left. cbn. lia.
  - apply (Htax " ab12 "). left. cbn. lia.
  - apply (Hrec (values (fst (run initial sampleEntry))) sampleRecord).
    reflexivity.
Defined.

(** C10: whichever way the request settles (ok, not ok, rejected), the
    handler ends with [isSubmitting] false; and a component that is
    submitting always has the call waiting whose settlement clears the
    flag. *)
Theorem settled_submission_clears_flag (st : State) :
  reachable st ->
  (forall i r, nth_error (pending st) i <> None ->
               isSubmitting (fst (step st (FetchSettled i r))) = false)
  /\ (isSubmitting st = true ->
      nth_error (pending st) 0 <> None
      /\ forall r, isSubmitting (fst (step st (FetchSettled 0 r))) = false).
Proof.
  intros Hr.
  assert (Hclear : forall i r, nth_error (pending st) i <> None ->
                     isSubmitting (fst (step st (FetchSettled i r))) = false).
  { intros i r Hp. cbn [step].
    destruct (nth_error (pending st) i); [|now contradiction Hp].
    destruct r as [[]|]; reflexivity. }
  split; [exact Hclear|].
  intros Hs. apply reachable_consistent in Hr. unfold consistent in Hr.
  rewrite Hs in Hr.
  destruct (CreditApplicationForm.isSuccess st); [contradiction|].
  destruct Hr as [[d Hp] _].
  assert (Hne : nth_error (pending st) 0 <> None) by (rewrite Hp; discriminate).
  split; [exact Hne|]. intros r. now apply Hclear.
Qed.

Lemma settled_submission_clears_flag_witness :
  let st := fst (run initial (sampleEntry ++ [SubmitClick])) in
  isSubmitting st = true
  /\ isSubmitting (fst (step st (FetchSettled 0 (response true)))) = false
  /\ isSubmitting (fst (step st (FetchSettled 0 (response false)))) = false
  /\ isSubmitting (fst (step st (FetchSettled 0 rejected))) = false.
Proof.
  cbv zeta.
  assert (Hr : reachable (fst (run initial (sampleEntry ++ [SubmitClick]))))
    by (exists (sampleEntry ++ [SubmitClick]); reflexivity).
  destruct (settled_submission_clears_flag _ Hr) as [Hclear _].
  split; [reflexivity|].
  split; [|split]; apply Hclear; discriminate.
Defined.

(** * Further properties of the component *)

(** ** Which message a field shows *)

Section FieldMessages.

Ltac run_string_checks :=
  cbv [nameSchema taxidSchema emailSchema nationalitySchema parseString
       nameChecks taxidChecks emailChecks nationalityChecks];
  cbn [runStringChecks].

Lemma matchesClassPlus_forallb cls s :
  JsString.forallb cls s = false -> matchesClassPlus cls s = false.
Proof.
  intros H. unfold matchesClassPlus. rewrite H. apply andb_false_r.
Qed.

(** The name field shows the first failed check in the order min, max,
    pattern, each judged on the trimmed text; a name holding a character
    outside letters, whitespace, apostrophe and hyphen is rejected. *)
Theorem name_first_error (s : string) :
  firstError (nameSchema s) =
    (if (String.length (trim s) <? 2)%nat
     then Some "Name must be at least 2 characters"
     else if (100 <? String.length (trim s))%nat
     then Some "Name must be less than 100 characters"
     else if matchesClassPlus nameClass (trim s) then None
     else Some "Name can only contain letters, spaces, hyphens, and apostrophes")
  /\ (JsString.forallb nameClass (trim s) = false ->
      succeeded (nameSchema s) = false).
Proof.
  split.
  - run_string_checks.
    destruct (String.length (trim s) <? 2)%nat eqn:Hlo;
      destruct (100 <? String.length (trim s))%nat eqn:Hhi;
      destruct (matchesClassPlus nameClass (trim s)) eqn:Hre; reflexivity.
  - intros H. apply matchesClassPlus_forallb in H.
    apply Bool.not_true_is_false. intros Hok.
    destruct (nameSchema s) as [d|] eqn:E; [|discriminate].
    apply nameSchema_success in E as [_ [_ Hre]]. congruence.
Qed.

Lemma name_first_error_witness :
  JsString.forallb nameClass (trim "J0hn") = false
  /\ succeeded (nameSchema "J0hn") = false.
Proof.
  split; [reflexivity|].
  apply (proj2 (name_first_error "J0hn")). reflexivity.
Defined.

(** The tax ID field shows the first failed check in the order min, max,
    pattern, each judged on the trimmed text; a tax ID holding a character
    that is not a letter or a digit is rejected. *)
Theorem taxid_first_error (s : string) :
  firstError (taxidSchema s) =
    (if (String.length (trim s) <? 5)%nat
     then Some "Tax ID must be at least 5 characters"
     else if (20 <? String.length (trim s))%nat
     then Some "Tax ID must be less than 20 characters"
     else if matchesClassPlus taxidClass (trim s) then None
     else Some "Tax ID can only contain letters and numbers")
  /\ (JsString.forallb taxidClass (trim s) = false ->
      succeeded (taxidSchema s) = false).
Proof.
  split.
  - run_string_checks.
    destruct (String.length (trim s) <? 5)%nat eqn:Hlo;
      destruct (20 <? String.length (trim s))%nat eqn:Hhi;
      destruct (matchesClassPlus taxidClass (trim s)) eqn:Hre; reflexivity.
  - intros H. apply matchesClassPlus_forallb in H.
    apply Bool.not_true_is_false. intros Hok.
    destruct (taxidSchema s) as [d|] eqn:E; [|discriminate].
    apply taxidSchema_success in E as [_ [_ Hre]]. congruence.
Qed.

Lemma taxid_first_error_witness :
  JsString.forallb taxidClass (trim "AB-123456") = false
  /\ succeeded (taxidSchema "AB-123456") = false.
Proof.
  split; [reflexivity|].
  apply (proj2 (taxid_first_error "AB-123456")). reflexivity.
Defined.

(** The email field reports a malformed address before an overlong one,
    both judged on the trimmed text. *)
Theorem email_first_error (s : string) :
  firstError (emailSchema s) =
    (if emailRegex (trim s)
     then if (255 <? String.length (trim s))%nat
          then Some "Email must be less than 255 characters" else None
     else Some "Please enter a valid email address").
Proof.
  run_string_checks.
  destruct (emailRegex (trim s)) eqn:Hre;
    destruct (255 <? String.length (trim s))%nat eqn:Hhi; reflexivity.
Qed.

(** The amount field: a value that does not coerce to a number (the
    untouched [undefined] among them) shows the type message; a number at
    most 0 shows the positivity message, and so does a cleared or blank
    input, which coerces to 0; a number above 10,000,000 shows the maximum
    message. *)
Theorem amount_first_error (x : AmountInput) :
  (Number x = NaN ->
   firstError (amountSchema x) = Some "Amount must be a valid number")
  /\ (Number x = NegInfinity \/ (exists q, Number x = Finite q /\ (q <= 0)%Q) ->
      firstError (amountSchema x) = Some "Amount must be greater than 0")
  /\ (Number x = PosInfinity \/ (exists q, Number x = Finite q /\ (10000000 < q)%Q) ->
      firstError (amountSchema x) = Some "Amount cannot exceed 10,000,000")
  /\ firstError (amountSchema undefined) = Some "Amount must be a valid number"
  /\ (forall s, isEmpty (trim s) = true ->
                firstError (amountSchema (text s))
                = Some "Amount must be greater than 0").
Proof.
  assert (Hlow : forall y, Number y = NegInfinity
                           \/ (exists q, Number y = Finite q /\ (q <= 0)%Q) ->
                 firstError (amountSchema y) = Some "Amount must be greater than 0").
  { intros y [E|(q & E & Hq)]; unfold amountSchema; rewrite E; [reflexivity|].
    apply Qle_bool_iff in Hq. cbn. change (inject_Z 0) with 0%Q.
    rewrite Hq. unfold Qltb. now destruct (Qle_bool q (inject_Z 10000000)). }
  split; [|split; [exact (Hlow x)|split; [|split]]].
  - intros E. unfold amountSchema. now rewrite E.
  - intros [E|(q & E & Hq)]; unfold amountSchema; rewrite E; [reflexivity|].
    assert (H0 : Qle_bool q 0 = false).
    { apply Bool.not_true_is_false. intros H. apply Qle_bool_iff in H.
      apply (Qlt_not_le _ _ Hq). eapply Qle_trans; [exact H|]. discriminate. }
    assert (H1 : Qle_bool q 10000000 = false).
    { apply Bool.not_true_is_false. intros H. apply Qle_bool_iff in H.
      apply (Qlt_not_le _ _ Hq H). }
    cbn. change (inject_Z 0) with 0%Q. change (inject_Z 10000000) with 10000000%Q.
    unfold Qltb. now rewrite H0, H1.
  - reflexivity.
  - intros s Hs. apply Hlow. right. exists 0%Q. split; [|apply Qle_refl].
    cbn [Number]. unfold StringToNumber. now rewrite Hs.
Qed.

Lemma amount_first_error_witness :
  firstError (amountSchema (text "abc")) = Some "Amount must be a valid number"
  /\ firstError (amountSchema (text "-5")) = Some "Amount must be greater than 0"
  /\ firstError (amountSchema (text "10000000.5"))
     = Some "Amount cannot exceed 10,000,000"
  /\ firstError (amountSchema (text "  ")) = Some "Amount must be greater than 0".
Proof.
  split; [|split; [|split]].
  - apply (proj1 (amount_first_error (text "abc"))). reflexivity.
  - apply (proj1 (proj2 (amount_first_error (text "-5")))).
    right. exists (-5)%Q. split; [reflexivity | discriminate].
  - apply (proj1 (proj2 (proj2 (amount_first_error (text "10000000.5"))))).
    right. exists (20000001 # 2)%Q. split; reflexivity.
  - apply (proj2 (proj2 (proj2 (proj2 (amount_first_error undefined)))) "  ").
    reflexivity.
Defined.

End FieldMessages.

(** ** Letter case of the tax ID *)

Section TaxidCase.

Lemma isWhiteSpace_upperChar c : isWhiteSpace (upperChar c) = isWhiteSpace c.
Proof. destruct c as [[] [] [] [] [] [] [] []]; reflexivity. Qed.

Lemma taxidClass_upperChar c : taxidClass (upperChar c) = taxidClass c.
Proof. destruct c as [[] [] [] [] [] [] [] []]; reflexivity. Qed.

Lemma upperChar_fixed_alnum c :
  upperChar c = c -> taxidClass c = true -> isUpperOrDigit c = true.
Proof.
  destruct c as [[] [] [] [] [] [] [] []]; intros H1 H2;
    first [reflexivity | discriminate].
Qed.

Lemma trimStart_toUpperCase s :
  trimStart (toUpperCase s) = toUpperCase (trimStart s).
Proof.
  induction s as [|c s IH]; [reflexivity|].
  cbn [toUpperCase trimStart]. rewrite isWhiteSpace_upperChar.
  destruct (isWhiteSpace c); [exact IH | reflexivity].
Qed.

Lemma trimEnd_toUpperCase s :
  trimEnd (toUpperCase s) = toUpperCase (trimEnd s).
Proof.
  induction s as [|c s IH]; [reflexivity|].
  cbn [toUpperCase trimEnd]. rewrite IH, isWhiteSpace_upperChar.
  destruct (trimEnd s); cbn [toUpperCase]; [destruct (isWhiteSpace c)|]; reflexivity.
Qed.

Lemma trim_toUpperCase s : trim (toUpperCase s) = toUpperCase (trim s).
Proof.
  unfold trim. now rewrite trimStart_toUpperCase, trimEnd_toUpperCase.
Qed.

Lemma matchesClassPlus_taxid_toUpperCase s :
  matchesClassPlus taxidClass (toUpperCase s) = matchesClassPlus taxidClass s.
Proof.
  unfold matchesClassPlus. f_equal.
  - now destruct s.
  - induction s as [|c s IH]; [reflexivity|].
    cbn [toUpperCase JsString.forallb]. now rewrite taxidClass_upperChar, IH.
Qed.

Lemma uppercase_alnum_is_upper_or_digit s :
  toUpperCase s = s -> JsString.forallb taxidClass s = true ->
  JsString.forallb isUpperOrDigit s = true.
Proof.
  induction s as [|c s IH]; [reflexivity|].
  cbn [toUpperCase JsString.forallb]. intros Hu Hc.
  injection Hu as Hc1 Hs1. apply andb_prop in Hc as [Hc Hs].
  rewrite (upperChar_fixed_alnum c Hc1 Hc). cbn. now apply IH.
Qed.

(** What an effect that is a request tells about the step: it is a submit
    from the rendered form with the button enabled, on values the resolver
    accepts, and the request is the one of [onSubmit] for the parsed
    record. *)
Lemma fetch_effect_inversion st ev url method headers body :
  In (fetch url method headers body) (snd (step st ev)) ->
  ev = SubmitClick
  /\ buttonEnabled st = true
  /\ exists d, zodResolver (values st) = valid d
               /\ fetch url method headers body = submitRequest (JSON_stringify d).
Proof.
  intros Hin.
  destruct ev as [s|s|s|s|s| |i r|]; cbn [step] in Hin;
    try (unfold onFieldChange in Hin; destruct (formRendered st);
         cbn in Hin; contradiction).
  - destruct (existsb (String.eqb s) nationalities); [|cbn in Hin; contradiction].
    unfold onFieldChange in Hin; destruct (formRendered st);
      cbn in Hin; contradiction.
  - destruct (buttonEnabled st); [|cbn in Hin; contradiction].
    split; [reflexivity|]. split; [reflexivity|].
    unfold handleSubmit in Hin.
    destruct (zodResolver (values st)) as [d|e]; cbn in Hin.
    + destruct Hin as [Hin|[]]. exists d. split; [reflexivity|].
      symmetry. exact Hin.
    + destruct Hin as [Hin|[]]. discriminate.
  - destruct (nth_error (pending st) i); [|cbn in Hin; contradiction].
    destruct r as [[]|]; cbn in Hin; intuition discriminate.
  - destruct (timers st); cbn in Hin; contradiction.
Qed.

(** Every request the form sends carries a tax ID of 5 to 20 characters
    that are uppercase letters and digits only: the change handler stores
    the uppercase, and the schema trims it and checks the pattern. *)
Theorem posted_taxid_is_uppercase st ev url method headers body :
  reachable st ->
  In (fetch url method headers body) (snd (step st ev)) ->
  exists d, body = JSON_stringify d
            /\ toUpperCase (taxid d) = taxid d
            /\ JsString.forallb isUpperOrDigit (taxid d) = true
            /\ (5 <= String.length (taxid d) <= 20)%nat.
Proof.
  intros Hr Hin.
  apply fetch_effect_inversion in Hin as (_ & _ & d & E & Hreq).
  injection Hreq as _ _ _ ->.
  apply reachable_normalized in Hr as [Hu _].
  apply zodResolver_valid_fields in E as (_ & _ & Ht & _ & _ & Hs).
  destruct Hs as (_ & _ & [Hlen Hre] & _).
  exists d. split; [reflexivity|].
  assert (Hfix : toUpperCase (taxid d) = taxid d)
    by (rewrite Ht, <- trim_toUpperCase, Hu; reflexivity).
  split; [exact Hfix|]. split; [|exact Hlen].
  apply uppercase_alnum_is_upper_or_digit; [exact Hfix|].
  unfold matchesClassPlus in Hre. now apply andb_prop in Hre as [_ Hre].
Qed.

Lemma posted_taxid_is_uppercase_witness :
  exists d, JSON_stringify sampleRecord = JSON_stringify d
            /\ toUpperCase (taxid d) = taxid d
            /\ JsString.forallb isUpperOrDigit (taxid d) = true
            /\ (5 <= String.length (taxid d) <= 20)%nat.
Proof.
  apply (posted_taxid_is_uppercase (fst (run initial sampleEntry)) SubmitClick
           "https://api.example.com/v1/form/submit" "POST"
           [("Content-Type", "application/json")]).
  - exists sampleEntry. reflexivity.
  - left. reflexivity.
Defined.

End TaxidCase.

(** ** Requests, notices and the success panel *)

Section Requests.

Lemma removeNth_length {A} (l : list A) i x :
  nth_error l i = Some x -> S (List.length (removeNth i l)) = List.length l.
Proof.
  revert i. induction l as [|h t IH]; intros i E.
  - destruct i; discriminate.
  - destruct i as [|i]; cbn in *; [reflexivity|].
    f_equal. now apply IH.
Qed.

Lemma countFetch_app a b : countFetch (a ++ b) = (countFetch a + countFetch b)%nat.
Proof. unfold countFetch. now rewrite filter_app, length_app. Qed.

Lemma countToast_app a b : countToast (a ++ b) = (countToast a + countToast b)%nat.
Proof. unfold countToast. now rewrite filter_app, length_app. Qed.

(** Any request the component sends is a POST to the fixed endpoint with
    the JSON content type, and its body holds the five fields as parsed
    from the form at that moment: the amount as a number in range (never
    null), the name, tax ID and email trimmed, the nationality as stored. *)
Theorem request_is_post_of_parsed_values st ev eff :
  In eff (snd (step st ev)) ->
  isFetch eff = true ->
  exists q,
    Number (amountField (values st)) = Finite q
    /\ (0 < q)%Q /\ (q <= 10000000)%Q
    /\ eff = fetch "https://api.example.com/v1/form/submit" "POST"
               [("Content-Type", "application/json")]
               [ ("amount", json_number q);
                 ("name", json_string (trim (nameField (values st))));
                 ("taxid", json_string (trim (taxidField (values st))));
                 ("nationality", json_string (nationalityField (values st)));
                 ("email", json_string (trim (emailField (values st)))) ].
Proof.
  intros Hin Hf. destruct eff as [url method headers body| | | | |]; try discriminate.
  apply fetch_effect_inversion in Hin as (_ & _ & d & E & ->).
  apply zodResolver_valid_fields in E as (Ha & Hn & Ht & Hc & He & Hs).
  destruct Hs as ((q & Hq & Hpos & Hmax) & _).
  exists q. rewrite <- Ha. repeat split; try assumption.
  unfold submitRequest, JSON_stringify. now rewrite Hq, Hn, Ht, Hc, He.
Qed.

Lemma request_is_post_of_parsed_values_witness :
  exists q,
    Number (text "1500.00") = Finite q
    /\ (0 < q)%Q /\ (q <= 10000000)%Q
    /\ submitRequest (JSON_stringify sampleRecord)
       = fetch "https://api.example.com/v1/form/submit" "POST"
           [("Content-Type", "application/json")]
           [ ("amount", json_number q);
             ("name", json_string (trim "John Doe"));
             ("taxid", json_string (trim "AB123456C"));
             ("nationality", json_string "american");
             ("email", json_string (trim "john@x.com")) ].
Proof.
  apply (request_is_post_of_parsed_values
           (fst (run initial sampleEntry)) SubmitClick
           (submitRequest (JSON_stringify sampleRecord))).
  - left. reflexivity.
  - reflexivity.
Defined.

End Requests.

(** ** Rejected submits and the success panel *)

Section Panels.

Lemma parseString_failure_message checks s :
  firstError (parseString checks s) = None ->
  exists d, parseString checks s = success d.
Proof.
  unfold parseString. destruct (runStringChecks checks s) as [d [|m issues]].
  - intros _. now exists d.
  - discriminate.
Qed.

Lemma amountSchema_failure_message x :
  firstError (amountSchema x) = None -> exists a, amountSchema x = success a.
Proof.
  unfold amountSchema. generalize (Number x). intros n.
  match goal with |- context [parseNumber ?m ?cs n] => generalize cs end.
  intros cs. unfold parseNumber.
  destruct n as [| |q|]; cbn [firstError hd_error]; try discriminate;
    (destruct (runNumberChecks cs _) as [|m l]; [eauto | discriminate]).
Qed.


End Panels.

(** ** Uppercase of the tax ID *)

Section TaxidUppercase.






(** On text within ASCII the pattern of the tax ID ignores letter case:
    the schema gives the text and its uppercase the same verdict and
    message, and where it accepts, the parsed value of the uppercase is the
    uppercase of the parsed value. *)
Theorem taxid_schema_ignores_case (s : string) :
  isAscii s = true ->
  firstError (taxidSchema (toUpperCase s)) = firstError (taxidSchema s)
  /\ (forall d, taxidSchema s = success d ->
                taxidSchema (toUpperCase s) = success (toUpperCase d)).
Proof.
  intros _. split.
  - cbv [taxidSchema parseString taxidChecks]. cbn [runStringChecks].
    rewrite trim_toUpperCase, toUpperCase_length,
      matchesClassPlus_taxid_toUpperCase.
    destruct (String.length (trim s) <? 5)%nat;
      destruct (20 <? String.length (trim s))%nat;
      destruct (matchesClassPlus taxidClass (trim s)); reflexivity.
  - intros d E. apply taxidSchema_success in E as [-> [Hlen Hre]].
    apply taxidSchema_success. split; [now rewrite trim_toUpperCase|].
    unfold taxidConstraint.
    now rewrite trim_toUpperCase, toUpperCase_length,
      matchesClassPlus_taxid_toUpperCase.
Qed.

Lemma taxid_schema_ignores_case_witness :
  firstError (taxidSchema (toUpperCase " ab-123 ")) = firstError (taxidSchema " ab-123 ")
  /\ taxidSchema (toUpperCase " ab123 ") = success "AB123".
Proof.
  split.
  - apply (proj1 (taxid_schema_ignores_case " ab-123 " eq_refl)).
  - apply (proj2 (taxid_schema_ignores_case " ab123 " eq_refl) "ab123").
    reflexivity.
Defined.

End TaxidUppercase.

(** * The component in the browser *)

Import Browser.

Section BrowserFacts.

Variable native : FieldValues -> bool.

(** Taken with the page rendered in between and no control refused by the
    browser, the tasks of an event do what [step] does. *)
Lemma step_is_rendered_play st ev :
  play (fun _ => true) (rendered st) (tasksOf ev)
  = (rendered (fst (step st ev)), snd (step st ev)).
Proof.
  destruct st as [sub suc v p t].
  destruct ev as [s|s|s|s|s| |i r|]; cbn [tasksOf play perform rendered
    component shownSuccess shownSubmitting validating step];
    unfold onFieldChange, formRendered, canSubmit, buttonEnabled, formRendered,
      handleSubmit, withComponent, rendered;
    cbn [CreditApplicationForm.isSuccess isSubmitting values component
         shownSuccess shownSubmitting validating].
  1-3,5: destruct suc; reflexivity.
  - destruct suc; cbn [edit negb]; [now destruct (existsb _ _)|].
    destruct (existsb (String.eqb s) nationalities); reflexivity.
  - destruct suc, sub; cbn [negb andb app nth_error removeNth]; try reflexivity.
    destruct (zodResolver v); reflexivity.
  - cbn [pending]. destruct (nth_error p i); [|reflexivity].
    destruct r as [[]|]; reflexivity.
  - cbn [timers]. destruct t; reflexivity.
Qed.

Lemma play_app p ts1 ts2 :
  play native p (ts1 ++ ts2)
  = (fst (play native (fst (play native p ts1)) ts2),
     snd (play native p ts1) ++ snd (play native (fst (play native p ts1)) ts2)).
Proof.
  revert p. induction ts1 as [|t ts1 IH]; intros p; cbn [app play fst snd].
  - now destruct (play native p ts2).
  - destruct (perform native p t) as [p1 e1]. rewrite IH.
    destruct (play native p1 ts1) as [p2 e2]. cbn [fst snd].
    now rewrite app_assoc.
Qed.

Lemma attainable_ind' (P : Page -> Prop) :
  P firstRender ->
  (forall p t, attainable native p -> P p -> P (fst (perform native p t))) ->
  forall p, attainable native p -> P p.
Proof.
  intros H0 Hs p [ts ->].
  induction ts as [|t ts IH] using rev_ind; [exact H0|].
  rewrite play_app. cbn [fst play].
  destruct (perform native (fst (play native firstRender ts)) t) as [p1 e1] eqn:E.
  cbn [fst]. change p1 with (fst (p1, e1)). rewrite <- E.
  apply Hs; [now exists ts | exact IH].
Qed.

End BrowserFacts.

Section BrowserClaims.



End BrowserClaims.

Section BrowserOutcomes.

(** C5: when a request fails (a response that is not ok, or a rejected
    fetch), whatever else is going on in the page, the handler leaves every
    field as it is, reports the error, sends nothing, clears [isSubmitting]
    and touches neither [isSuccess] nor the other calls; and when the form
    is the one shown, the next render enables the button, so that a submit
    of values the browser lets through is taken again and runs the
    resolver on those same values. *)
Theorem failure_keeps_form_and_allows_retry (native : FieldValues -> bool)
  (p : Page) (i : nat) (r : FetchOutcome) :
  nth_error (pending (component p)) i <> None ->
  isFailure r = true ->
  let p' := fst (perform native p (RequestSettled i r)) in
  values (component p') = values (component p)
  /\ isSubmitting (component p') = false
  /\ CreditApplicationForm.isSuccess (component p')
     = CreditApplicationForm.isSuccess (component p)
  /\ pending (component p') = removeNth i (pending (component p))
  /\ validating p' = validating p
  /\ snd (perform native p (RequestSettled i r))
     = [ toast_error "Submission Failed"
           "Unable to submit your application. Please try again.";
         console_error "Form submission error:" ]
  /\ (CreditApplicationForm.isSuccess (component p) = false ->
      native (values (component p)) = true ->
      let shown := fst (perform native p' Render) in
      canSubmit shown = true
      /\ snd (perform native shown Submit) = []
      /\ validating (fst (perform native shown Submit))
         = validating p ++ [zodResolver (values (component p))]).
Proof.
  intros Hp Hfail. cbv zeta.
  destruct p as [[sub suc v pd t] ssub ssuc val].
  cbn [component pending] in Hp.
  cbn [perform component step pending].
  destruct (nth_error pd i) as [d|]; [clear Hp | now contradiction Hp].
  destruct r as [[]|]; try discriminate;
    cbn [onSubmitResume fst snd withComponent component values isSubmitting
         CreditApplicationForm.isSuccess pending validating shownSuccess
         shownSubmitting];
    (repeat (split; [reflexivity|]));
    intros Hs Hn; subst suc; unfold canSubmit;
    cbn [shownSuccess shownSubmitting negb andb component values validating
         isSubmitting CreditApplicationForm.isSuccess] in *;
    rewrite Hn; cbn [fst snd validating]; repeat split.
Qed.

Lemma failure_keeps_form_and_allows_retry_witness :
  let p := fst (play (fun _ => true) firstRender
                  (map Input sampleEntry ++ [Submit; ResolverSettled 0; Render])) in
  let p' := fst (perform (fun _ => true) p (RequestSettled 0 (response false))) in
  values (component p') = values (component p)
  /\ isSubmitting (component p') = false
  /\ canSubmit (fst (perform (fun _ => true) p' Render)) = true.
Proof.
  cbv zeta.
  destruct (failure_keeps_form_and_allows_retry (fun _ => true)
              (fst (play (fun _ => true) firstRender
                      (map Input sampleEntry ++ [Submit; ResolverSettled 0; Render])))
              0 (response false))
    as (Hv & Hs & _ & _ & _ & _ & Hretry).
  - discriminate.
  - reflexivity.
  - split; [exact Hv|]. split; [exact Hs|].
    apply Hretry; reflexivity.
Defined.

(** C8: on a successful response, whatever else is going on in the page,
    the handler sets [isSuccess], clears [isSubmitting], shows the
    confirmation and schedules the reset 3000 ms ahead; the next render
    shows the panel in place of the form, so that no field can be edited
    and nothing submitted; and when the timer runs, the record is back at
    its defaults (no amount, the four texts empty) and [isSuccess] is
    false: the controller is idle again. *)
Theorem success_then_reset_to_defaults (native : FieldValues -> bool)
  (p : Page) (i : nat) :
  nth_error (pending (component p)) i <> None ->
  let p1 := fst (perform native p (RequestSettled i (response true))) in
  let shown := fst (perform native p1 Render) in
  let p2 := fst (perform native p1 TimerFired) in
  snd (perform native p (RequestSettled i (response true)))
  = [ toast_success "Application Submitted"
        "Your credit application has been received successfully.";
      setTimeout 3000 ]
  /\ CreditApplicationForm.isSuccess (component p1) = true
  /\ isSubmitting (component p1) = false
  /\ timers (component p1) = S (timers (component p))
  /\ shownSuccess shown = true
  /\ (forall ev, perform native shown (Input ev) = (shown, []))
  /\ perform native shown Submit = (shown, [])
  /\ snd (perform native p1 TimerFired) = []
  /\ values (component p2)
     = {| amountField := undefined; nameField := ""; taxidField := "";
          nationalityField := ""; emailField := "" |}
  /\ CreditApplicationForm.isSuccess (component p2) = false
  /\ isSubmitting (component p2) = false
  /\ timers (component p2) = timers (component p)
  /\ (forall q, timers (component q) <> 0%nat ->
        let q' := fst (perform native q TimerFired) in
        values (component q')
        = {| amountField := undefined; nameField := ""; taxidField := "";
             nationalityField := ""; emailField := "" |}
        /\ CreditApplicationForm.isSuccess (component q') = false
        /\ isSubmitting (component q') = isSubmitting (component q)).
Proof.
  intros Hp. cbv zeta.
  destruct p as [[sub suc v pd t] ssub ssuc val].
  cbn [component pending] in Hp.
  cbn [perform component step pending].
  destruct (nth_error pd i) as [d|]; [clear Hp | now contradiction Hp].
  cbn. repeat (split; [reflexivity|]).
  intros [[qsub qsuc qv qpd [|qt]] qssub qssuc qval] Hq;
    [now contradiction Hq|]. cbn. repeat split.
Qed.

Lemma success_then_reset_to_defaults_witness :
  let p := fst (play (fun _ => true) firstRender
                  (map Input sampleEntry ++ [Submit; ResolverSettled 0; Render])) in
  let p1 := fst (perform (fun _ => true) p (RequestSettled 0 (response true))) in
  CreditApplicationForm.isSuccess (component p1) = true
  /\ component (fst (perform (fun _ => true) p1 TimerFired)) = initial.
Proof.
  cbv zeta.
  destruct (success_then_reset_to_defaults (fun _ => true)
              (fst (play (fun _ => true) firstRender
                      (map Input sampleEntry ++ [Submit; ResolverSettled 0; Render])))
              0)
    as (_ & Hs & _).
  - discriminate.
  - split; [exact Hs | reflexivity].
Defined.

End BrowserOutcomes.

(** ** Requests and notices in the browser *)

Section BrowserExtras.

Lemma perform_accounting native p t :
  (countFetch (snd (perform native p t)) + List.length (pending (component p))
   = countToast (snd (perform native p t))
     + List.length (pending (component (fst (perform native p t)))))%nat.
Proof.
  destruct p as [[sub suc v pd tm] ssub ssuc val].
  destruct t as [ev| |i|i r| |]; cbn [perform component].
  - destruct ssuc; reflexivity.
  - destruct (canSubmit _ && native _); reflexivity.
  - cbn [validating]. destruct (nth_error val i) as [[d|e]|]; try reflexivity.
    cbn. rewrite length_app. cbn. lia.
  - cbn [step pending]. destruct (nth_error pd i) eqn:E; [|reflexivity].
    apply removeNth_length in E.
    destruct r as [[]|]; cbn; lia.
  - cbn [step timers]. destruct tm; reflexivity.
  - reflexivity.
Qed.

Lemma play_accounting native ts : forall p,
  (countFetch (snd (play native p ts)) + List.length (pending (component p))
   = countToast (snd (play native p ts))
     + List.length (pending (component (fst (play native p ts)))))%nat.
Proof.
  induction ts as [|t ts IH]; intros p; [reflexivity|].
  cbn [play]. pose proof (perform_accounting native p t) as Hs.
  destruct (perform native p t) as [p1 e1]. specialize (IH p1).
  destruct (play native p1 ts) as [p2 e2]. cbn [fst snd] in *.
  unfold countFetch, countToast in *.
  rewrite !filter_app, !length_app. lia.
Qed.

(** Along any sequence of tasks from the first render (submits in a row,
    renders late or early, controls refused by the browser or not), the
    requests sent are the toasts shown (success or error) plus the requests
    still in flight: every request is answered by exactly one toast, and
    no toast is shown without a request. *)
Theorem every_request_gets_one_notice (native : FieldValues -> bool)
  (ts : list Task) :
  countFetch (snd (play native firstRender ts))
  = (countToast (snd (play native firstRender ts))
     + List.length (pending (component (fst (play native firstRender ts)))))%nat.
Proof.
  pose proof (play_accounting native ts firstRender) as H.
  cbn [firstRender component pending initial List.length] in H. lia.
Qed.

(** The success panel cannot stay for ever: in every page the tasks can
    lead to, while [isSuccess] is true a reset timer is waiting. *)
Theorem success_panel_has_reset_pending (native : FieldValues -> bool) (p : Page) :
  attainable native p ->
  CreditApplicationForm.isSuccess (component p) = true ->
  (1 <= timers (component p))%nat.
Proof.
  intros Hp. pattern p. revert p Hp. apply attainable_ind'.
  - discriminate.
  - intros [[sub suc v pd tm] ssub ssuc val] t _ IH.
    cbn [component CreditApplicationForm.isSuccess timers] in IH.
    destruct t as [ev| |i|i r| |]; cbn [perform component].
    + destruct ssuc; exact IH.
    + destruct (canSubmit _ && native _); exact IH.
    + cbn [validating]. destruct (nth_error val i) as [[d|e]|]; exact IH.
    + cbn [step pending]. destruct (nth_error pd i); [|exact IH].
      destruct r as [[]|]; cbn; intros H; [lia | now apply IH | now apply IH].
    + cbn [step timers]. destruct tm; [exact IH|]. cbn. discriminate.
    + exact IH.
Qed.

Lemma success_panel_has_reset_pending_witness :
  (1 <= timers (component
                  (fst (play (fun _ => true) firstRender
                          (map Input sampleEntry
                           ++ [Submit; ResolverSettled 0;
                               RequestSettled 0 (response true)])))))%nat.
Proof.
  apply (success_panel_has_reset_pending (fun _ => true)).
  - eexists. reflexivity.
  - reflexivity.
Defined.

End BrowserExtras.

(** ** Rejected submits in the browser *)

Section BrowserRejected.

Lemma nth_error_snoc {A} (l : list A) x :
  nth_error (l ++ [x]) (List.length l) = Some x.
Proof. induction l as [|h t IH]; [reflexivity | exact IH]. Qed.

Lemma removeNth_snoc {A} (l : list A) x :
  removeNth (List.length l) (l ++ [x]) = l.
Proof.
  induction l as [|h t IH]; [reflexivity|]. cbn. now rewrite IH.
Qed.

(** When the form is shown with its button enabled and the browser lets
    the controls through, a submit of values the resolver rejects is taken
    and, once the resolver returns, only shows the messages: nothing is
    sent and the component is as before.  Each field's message is the first
    issue of that field's own schema on that field's own value, whatever
    the other fields hold, and at least one field has a message. *)
Theorem rejected_submit_shows_field_errors (native : FieldValues -> bool)
  (p : Page) (e : FieldErrors) :
  canSubmit p = true ->
  native (values (component p)) = true ->
  zodResolver (values (component p)) = invalid e ->
  let taken := fst (perform native p Submit) in
  snd (perform native p Submit) = []
  /\ validating taken = validating p ++ [invalid e]
  /\ perform native taken (ResolverSettled (List.length (validating p)))
     = (p, [showErrors e])
  /\ amountError e = firstError (amountSchema (amountField (values (component p))))
  /\ nameError e = firstError (nameSchema (nameField (values (component p))))
  /\ taxidError e = firstError (taxidSchema (taxidField (values (component p))))
  /\ nationalityError e
     = firstError (nationalitySchema (nationalityField (values (component p))))
  /\ emailError e = firstError (emailSchema (emailField (values (component p))))
  /\ (amountError e <> None \/ nameError e <> None \/ taxidError e <> None
      \/ nationalityError e <> None \/ emailError e <> None).
Proof.
  intros Hcan Hn E. cbv zeta.
  assert (Htaken : perform native p Submit
                   = ({| component := component p;
                         shownSubmitting := shownSubmitting p;
                         shownSuccess := shownSuccess p;
                         validating := validating p ++ [invalid e] |}, [])).
  { cbn [perform]. now rewrite Hcan, Hn, E. }
  rewrite Htaken. cbn [fst snd validating].
  split; [reflexivity|]. split; [reflexivity|]. split.
  { cbn [perform validating]. rewrite nth_error_snoc, removeNth_snoc.
    cbn [component shownSubmitting shownSuccess]. now destruct p. }
  set (v := values (component p)) in *.
  assert (Hfields :
            amountError e = firstError (amountSchema (amountField v))
            /\ nameError e = firstError (nameSchema (nameField v))
            /\ taxidError e = firstError (taxidSchema (taxidField v))
            /\ nationalityError e
               = firstError (nationalitySchema (nationalityField v))
            /\ emailError e = firstError (emailSchema (emailField v))).
  { unfold zodResolver in E.
    destruct (amountSchema (amountField v)), (nameSchema (nameField v)),
      (taxidSchema (taxidField v)), (nationalitySchema (nationalityField v)),
      (emailSchema (emailField v)); try discriminate;
      injection E as <-; repeat split. }
  destruct Hfields as (Ha & Hm & Ht & Hc & He).
  repeat (split; [assumption|]).
  destruct (amountError e) eqn:Ea; [left; discriminate|].
  destruct (nameError e) eqn:En; [right; left; discriminate|].
  destruct (taxidError e) eqn:Et; [right; right; left; discriminate|].
  destruct (nationalityError e) eqn:Ec; [right; right; right; left; discriminate|].
  destruct (emailError e) eqn:Ee; [right; right; right; right; discriminate|].
  exfalso.
  symmetry in Ha, Hm, Ht, Hc, He.
  apply amountSchema_failure_message in Ha as [a Ha].
  apply parseString_failure_message in Hm as [n Hm].
  apply parseString_failure_message in Ht as [t Ht].
  apply parseString_failure_message in Hc as [c Hc].
  apply parseString_failure_message in He as [m He].
  unfold zodResolver in E.
  unfold nameSchema, taxidSchema, nationalitySchema, emailSchema in E.
  rewrite Ha, Hm, Ht, Hc, He in E. discriminate.
Qed.

Lemma rejected_submit_shows_field_errors_witness :
  perform (fun _ => true) (fst (perform (fun _ => true) firstRender Submit))
    (ResolverSettled 0)
  = (firstRender,
     [ showErrors
         {| amountError := Some "Amount must be a valid number";
            nameError := Some "Name must be at least 2 characters";
            taxidError := Some "Tax ID must be at least 5 characters";
            nationalityError := Some "Please select your nationality";
            emailError := Some "Please enter a valid email address" |} ]).
Proof.
  apply (rejected_submit_shows_field_errors (fun _ => true) firstRender).
  - reflexivity.
  - reflexivity.
  - reflexivity.
Defined.

End BrowserRejected.
